(** * Verification of scripts/bucket.py

    The script provisions one S3 bucket for static website hosting:
    it builds a storage client, then inside a single [try] block issues four
    remote calls (create_bucket, put_public_access_block, put_bucket_website,
    put_bucket_policy), prints a success URL, and on [ClientError] prints one
    diagnostic line instead.

    The embedding is shallow.  Python values that travel in keyword
    arguments are a small inductive type, the remote service is an arbitrary
    deterministic oracle, and the procedure is written in a state-and-exception
    monad whose state (the calls issued so far and the lines printed so far)
    survives a raised exception, as the outside world does in Python. *)

From Stdlib Require Import String Ascii List Bool Arith Lia.
Import ListNotations.
Local Open Scope string_scope.
Set Warnings "-register-all".

(** ** Python values *)

(** The literals the script builds: [str], [bool], [list] and [dict].  A dict
    keeps its insertion order (which [json.dumps] follows), so it is an
    association list. *)
Inductive value : Type :=
| VStr (s : string)
| VBool (b : bool)
| VList (items : list value)
| VDict (entries : list (string * value)).

(** [d.get(k)] on an association list: the first binding of [k]. *)
Fixpoint dict_get {A : Type} (k : string) (d : list (string * A)) : option A :=
  match d with
  | [] => None
  | (k', v) :: rest => if String.eqb k k' then Some v else dict_get k rest
  end.

(** [k in d]. *)
Definition dict_has {A : Type} (k : string) (d : list (string * A)) : bool :=
  match dict_get k d with Some _ => true | None => false end.

(** ** json.dumps

    [json.dumps] with its default arguments ([ensure_ascii=True], separators
    [", "] and [": "], no indentation) on the fragment above.  A character
    is read as the code point of its byte. *)
Module Json.

Definition dquote : string := String "034"%char EmptyString.
Definition backslash : string := String "092"%char EmptyString.

Definition hex_digit (n : nat) : ascii :=
  match n with
  | 0 => "0" | 1 => "1" | 2 => "2" | 3 => "3" | 4 => "4" | 5 => "5"
  | 6 => "6" | 7 => "7" | 8 => "8" | 9 => "9" | 10 => "a" | 11 => "b"
  | 12 => "c" | 13 => "d" | 14 => "e" | _ => "f"
  end%char.

(** ['\\u{0:04x}'.format(n)] for a code point below 256. *)
Definition escape_u (n : nat) : string :=
  backslash ++ "u00"
    ++ String (hex_digit (n / 16)) (String (hex_digit (n mod 16)) EmptyString).

(** The replacement table [ESCAPE_DCT] and the fallback of
    [py_encode_basestring_ascii]: the backslash, the double quote and
    everything outside [' '..'~'] are escaped. *)
Definition escape_char (c : ascii) : string :=
  let n := nat_of_ascii c in
  if Nat.eqb n 92 then backslash ++ backslash
  else if Nat.eqb n 34 then backslash ++ dquote
  else if Nat.eqb n 8 then backslash ++ "b"
  else if Nat.eqb n 12 then backslash ++ "f"
  else if Nat.eqb n 10 then backslash ++ "n"
  else if Nat.eqb n 13 then backslash ++ "r"
  else if Nat.eqb n 9 then backslash ++ "t"
  else if Nat.ltb n 32 || Nat.ltb 126 n then escape_u n
  else String c EmptyString.

Fixpoint escape (s : string) : string :=
  match s with
  | EmptyString => EmptyString
  | String c rest => escape_char c ++ escape rest
  end.

Definition encode_basestring_ascii (s : string) : string :=
  dquote ++ escape s ++ dquote.

Fixpoint dumps (v : value) : string :=
  match v with
  | VStr s => encode_basestring_ascii s
  | VBool true => "true"
  | VBool false => "false"
  | VList items =>
      "[" ++
      (fix elems (l : list value) : string :=
         match l with
         | [] => EmptyString
         | [x] => dumps x
         | x :: rest => dumps x ++ ", " ++ elems rest
         end) items
      ++ "]"
  | VDict entries =>
      "{" ++
      (fix pairs (l : list (string * value)) : string :=
         match l with
         | [] => EmptyString
         | [(k, x)] => encode_basestring_ascii k ++ ": " ++ dumps x
         | (k, x) :: rest =>
             encode_basestring_ascii k ++ ": " ++ dumps x ++ ", " ++ pairs rest
         end) entries
      ++ "}"
  end.

End Json.

(** ** Exceptions, the service and the world *)

(** An exception object.  [ClientError] stands for any instance of
    [botocore.exceptions.ClientError]; every other exception keeps its class
    name.  Both carry the text [str(e)] gives. *)
Inductive exn : Type :=
| ClientError (text : string)
| OtherException (cls : string) (text : string).

(** [str(e)]. *)
Definition str (e : exn) : string :=
  match e with
  | ClientError text => text
  | OtherException _ text => text
  end.

(** [isinstance(e, ClientError)]. *)
Definition is_ClientError (e : exn) : bool :=
  match e with
  | ClientError _ => true
  | OtherException _ _ => false
  end.

(** A call on the client: the method name and its keyword arguments. *)
Record request : Type := Request {
  method : string;
  kwargs : list (string * value)
}.

(** What a call comes back with.  The script ignores every returned value, so
    a normal return carries none. *)
Inductive reply : Type :=
| Accepted
| Failed (e : exn).

(** The object [boto3.client(service_name, region_name=...)] returns. *)
Record client : Type := Client {
  service_name : string;
  region_name : string
}.

(** The world outside the script: how client construction answers, and how
    the service answers a request given the client and everything exchanged
    before it in this run.  Any deterministic service, in any prior state, is
    such a function. *)
Record service : Type := Service {
  construct : string -> string -> reply;
  respond : client -> list (request * reply) -> request -> reply
}.

(** What a run leaves behind: the remote calls issued, oldest first, each with
    its reply, and the lines written to standard output. *)
Record world : Type := World {
  wire : list (request * reply);
  stdout : list string
}.

Definition initial : world := World [] [].

(** ** The monad *)

Inductive outcome (A : Type) : Type :=
| Returned (a : A)
| Raised (e : exn).
Arguments Returned {A} a.
Arguments Raised {A} e.

Definition M (A : Type) : Type := service -> world -> outcome A * world.

Definition ret {A : Type} (a : A) : M A :=
  fun _ w => (Returned a, w).

Definition bind {A B : Type} (m : M A) (k : A -> M B) : M B :=
  fun svc w =>
    match m svc w with
    | (Returned a, w') => k a svc w'
    | (Raised e, w') => (Raised e, w')
    end.

Declare Scope py_scope.
Delimit Scope py_scope with py.
Notation "x <- m ;; k" := (bind m (fun x => k))
  (at level 61, m at next level, right associativity) : py_scope.
Notation "m ;; k" := (bind m (fun _ => k))
  (at level 61, right associativity) : py_scope.
Local Open Scope py_scope.

(** [try: body / except ClientError as e: handler e].  Exceptions of other
    classes pass through; the world is the one the body left. *)
Definition try_except_ClientError {A : Type} (body : M A) (handler : exn -> M A)
  : M A :=
  fun svc w =>
    match body svc w with
    | (Returned a, w') => (Returned a, w')
    | (Raised e, w') =>
        if is_ClientError e then handler e svc w' else (Raised e, w')
    end.

(** [print(line)]: the line is appended to standard output.  Writing to
    standard output is taken never to raise. *)
Definition print (line : string) : M unit :=
  fun _ w => (Returned tt, World (wire w) (stdout w ++ [line])).

(** [boto3.client(name, region_name=region)]. *)
Definition boto3_client (name region : string) : M client :=
  fun svc w =>
    match construct svc name region with
    | Accepted => (Returned (Client name region), w)
    | Failed e => (Raised e, w)
    end.

(** A method call on the client with keyword arguments [kw]: the request
    goes out and is recorded with the reply;
    a failure reply is raised. *)
Definition invoke (s3 : client) (meth : string) (kw : list (string * value))
  : M unit :=
  fun svc w =>
    let q := Request meth kw in
    let r := respond svc s3 (wire w) q in
    let w' := World (wire w ++ [(q, r)]) (stdout w) in
    match r with
    | Accepted => (Returned tt, w')
    | Failed e => (Raised e, w')
    end.

(** ** The script *)

(** The two locals of [create_bucket] that do not depend on its argument:
    the bucket name, and the policy dict built before the last call. *)
Definition bucket_name : string := "cloud-app-project-1".

Definition bucket_policy : value :=
  VDict
    [ ("Version", VStr "2012-10-17");
      ("Statement",
       VList
         [ VDict
             [ ("Sid", VStr "PublicReadGetObject");
               ("Effect", VStr "Allow");
               ("Principal", VStr "*");
               ("Action", VStr "s3:GetObject");
               ("Resource", VStr ("arn:aws:s3:::" ++ bucket_name ++ "/*")) ] ]) ].

(** [def create_bucket(region='sa-east-1')]: [None] is the call that leaves
    the parameter out. *)
Definition create_bucket (region_arg : option string) : M unit :=
  let region := match region_arg with Some r => r | None => "sa-east-1" end in
  s3 <- boto3_client "s3" region ;;
  try_except_ClientError
    ( print ("Criando o bucket " ++ bucket_name) ;;
      (if negb (String.eqb region "us-east-1") then
         invoke s3 "create_bucket"
           [ ("Bucket", VStr bucket_name);
             ("CreateBucketConfiguration",
              VDict [ ("LocationConstraint", VStr region) ]) ]
       else
         invoke s3 "create_bucket" [ ("Bucket", VStr bucket_name) ]) ;;
      invoke s3 "put_public_access_block"
        [ ("Bucket", VStr bucket_name);
          ("PublicAccessBlockConfiguration",
           VDict
             [ ("BlockPublicAcls", VBool false);
               ("IgnorePublicAcls", VBool false);
               ("BlockPublicPolicy", VBool false);
               ("RestrictPublicBuckets", VBool false) ]) ] ;;
      invoke s3 "put_bucket_website"
        [ ("Bucket", VStr bucket_name);
          ("WebsiteConfiguration",
           VDict
             [ ("ErrorDocument", VDict [ ("Key", VStr "error.html") ]);
               ("IndexDocument", VDict [ ("Suffix", VStr "index.html") ]) ]) ] ;;
      invoke s3 "put_bucket_policy"
        [ ("Bucket", VStr bucket_name);
          ("Policy", VStr (Json.dumps bucket_policy)) ] ;;
      print "Bucket configurado com sucesso!" ;;
      print ("URL: http://" ++ bucket_name ++ ".s3-website-" ++ region
             ++ ".amazonaws.com") )
    (fun e => print ("Erro: " ++ str e)).

(** The [__main__] guard: run as a script, the module calls [create_bucket()]
    with no argument. *)
Definition main (name : string) : M unit :=
  if String.eqb name "__main__" then create_bucket None else ret tt.

(** A run of the procedure from a fresh process, with the region given
    ([run]) or left to its default ([run_default]). *)
Definition run (svc : service) (region : string) : outcome unit * world :=
  create_bucket (Some region) svc initial.

Definition run_default (svc : service) : outcome unit * world :=
  create_bucket None svc initial.

Definition result (svc : service) (region : string) : outcome unit :=
  fst (run svc region).

Definition calls (svc : service) (region : string) : list (request * reply) :=
  wire (snd (run svc region)).

Definition printed (svc : service) (region : string) : list string :=
  stdout (snd (run svc region)).

Definition accepted (qr : request * reply) : bool :=
  match snd qr with Accepted => true | Failed _ => false end.

(** ** The run as a list of requests issued until the first failure *)

Definition create_request (region : string) : request :=
  if negb (String.eqb region "us-east-1") then
    Request "create_bucket"
      [ ("Bucket", VStr bucket_name);
        ("CreateBucketConfiguration",
         VDict [ ("LocationConstraint", VStr region) ]) ]
  else Request "create_bucket" [ ("Bucket", VStr bucket_name) ].

Definition block_request : request :=
  Request "put_public_access_block"
    [ ("Bucket", VStr bucket_name);
      ("PublicAccessBlockConfiguration",
       VDict
         [ ("BlockPublicAcls", VBool false);
           ("IgnorePublicAcls", VBool false);
           ("BlockPublicPolicy", VBool false);
           ("RestrictPublicBuckets", VBool false) ]) ].

Definition website_request : request :=
  Request "put_bucket_website"
    [ ("Bucket", VStr bucket_name);
      ("WebsiteConfiguration",
       VDict
         [ ("ErrorDocument", VDict [ ("Key", VStr "error.html") ]);
           ("IndexDocument", VDict [ ("Suffix", VStr "index.html") ]) ]) ].

Definition policy_request : request :=
  Request "put_bucket_policy"
    [ ("Bucket", VStr bucket_name);
      ("Policy", VStr (Json.dumps bucket_policy)) ].

Definition plan (region : string) : list request :=
  [ create_request region; block_request; website_request; policy_request ].

(** Send the requests of [todo] one after the other, each seeing the exchange
    so far, and stop after the first one that fails. *)
Fixpoint issue (svc : service) (s3 : client) (hist : list (request * reply))
    (todo : list request) : list (request * reply) :=
  match todo with
  | [] => []
  | q :: rest =>
      let r := respond svc s3 hist q in
      (q, r) ::
      match r with
      | Accepted => issue svc s3 (hist ++ [(q, r)]) rest
      | Failed _ => []
      end
  end.

Fixpoint first_failure (l : list (request * reply)) : option exn :=
  match l with
  | [] => None
  | (_, Failed e) :: _ => Some e
  | (_, Accepted) :: rest => first_failure rest
  end.

Definition line_start : string := "Criando o bucket cloud-app-project-1".
Definition line_done : string := "Bucket configurado com sucesso!".
Definition line_url (region : string) : string :=
  "URL: http://cloud-app-project-1.s3-website-" ++ region ++ ".amazonaws.com".

(** The four method names, in program order. *)
Definition methods : list string :=
  [ "create_bucket"; "put_public_access_block"; "put_bucket_website";
    "put_bucket_policy" ].

(** ** Services used as concrete inputs *)

(** Accepts everything. *)
Definition svc_ok : service :=
  Service (fun _ _ => Accepted) (fun _ _ _ => Accepted).

(** Fails the call of method [m] with exception [e], accepts the others. *)
Definition svc_failing (m : string) (e : exn) : service :=
  Service (fun _ _ => Accepted)
    (fun _ _ q => if String.eqb (method q) m then Failed e else Accepted).

(** Cannot build a client. *)
Definition svc_no_client (e : exn) : service :=
  Service (fun _ _ => Failed e) (fun _ _ _ => Accepted).

(** The text [json.dumps(bucket_policy)] is expected to produce, written out
    character by character; [quoted s] is [s] between double quotes. *)
Definition quoted (s : string) : string := Json.dquote ++ s ++ Json.dquote.

Definition policy_text : string :=
  "{" ++ quoted "Version" ++ ": " ++ quoted "2012-10-17" ++ ", "
  ++ quoted "Statement" ++ ": [{"
  ++ quoted "Sid" ++ ": " ++ quoted "PublicReadGetObject" ++ ", "
  ++ quoted "Effect" ++ ": " ++ quoted "Allow" ++ ", "
  ++ quoted "Principal" ++ ": " ++ quoted "*" ++ ", "
  ++ quoted "Action" ++ ": " ++ quoted "s3:GetObject" ++ ", "
  ++ quoted "Resource" ++ ": " ++ quoted "arn:aws:s3:::cloud-app-project-1/*"
  ++ "}]}".

(** The service as it stands after the exchange [h]: it answers a request
    as the original does once [h] has gone before. *)
Definition advance (h : list (request * reply)) (svc : service) : service :=
  Service (construct svc) (fun c h' q => respond svc c (h ++ h') q).

(** Serves the client built for service [name] in region [region] and fails
    every call made through any other client with [e]. *)
Definition svc_only_client (name region : string) (e : exn) : service :=
  Service (fun _ _ => Accepted)
    (fun c _ _ =>
       if String.eqb (service_name c) name && String.eqb (region_name c) region
       then Accepted else Failed e).

(** ** Unfolding a run *)

Lemma bind_print {B : Type} (line : string) (k : unit -> M B) svc w :
  bind (print line) k svc w = k tt svc (World (wire w) (stdout w ++ [line])).
Proof. reflexivity. Qed.

Lemma bind_invoke {B : Type} s3 meth kw (k : unit -> M B) svc w :
  bind (invoke s3 meth kw) k svc w =
  match respond svc s3 (wire w) (Request meth kw) with
  | Accepted =>
      k tt svc (World (wire w ++ [(Request meth kw, Accepted)]) (stdout w))
  | Failed e =>
      (Raised e, World (wire w ++ [(Request meth kw, Failed e)]) (stdout w))
  end.
Proof.
  unfold bind, invoke.
  destruct (respond svc s3 (wire w) (Request meth kw)); reflexivity.
Qed.

Ltac step_invoke :=
  rewrite bind_invoke; cbn [wire stdout app];
  match goal with
  | |- context [respond ?s ?c ?h ?q] =>
      destruct (respond s c h q) as [|[?|? ?]]
  end;
  cbn [issue first_failure app wire stdout is_ClientError str fst snd];
  try reflexivity.

Lemma run_unfold (svc : service) (r : string) :
  run svc r =
  match construct svc "s3" r with
  | Failed e => (Raised e, initial)
  | Accepted =>
      let tr := issue svc (Client "s3" r) [] (plan r) in
      match first_failure tr with
      | None => (Returned tt, World tr [line_start; line_done; line_url r])
      | Some e =>
          if is_ClientError e
          then (Returned tt, World tr [line_start; "Erro: " ++ str e])
          else (Raised e, World tr [line_start])
      end
  end.
Proof.
  unfold run, create_bucket.
  unfold bind at 1, boto3_client.
  destruct (construct svc "s3" r) as [|e0]; [|reflexivity].
  unfold try_except_ClientError, plan, create_request, block_request,
    website_request, policy_request, initial.
  rewrite bind_print; cbn [wire stdout app issue].
  destruct (negb (String.eqb r "us-east-1")).
  all: do 4 step_invoke.
Qed.

(** ** Properties of [issue] *)

Section Issue.

Variable svc : service.
Variable s3 : client.

Lemma issue_requests hist todo :
  map fst (issue svc s3 hist todo)
  = firstn (length (issue svc s3 hist todo)) todo.
Proof.
  revert hist; induction todo as [|q rest IH]; intros hist; [reflexivity|].
  cbn [issue]. destruct (respond svc s3 hist q); cbn; [|reflexivity].
  now rewrite IH.
Qed.

Lemma issue_failed_last hist todo i q e :
  nth_error (issue svc s3 hist todo) i = Some (q, Failed e) ->
  length (issue svc s3 hist todo) = S i
  /\ first_failure (issue svc s3 hist todo) = Some e.
Proof.
  revert hist i; induction todo as [|q0 rest IH]; intros hist i H.
  - destruct i; discriminate.
  - cbn [issue] in *. destruct (respond svc s3 hist q0) as [|e0].
    + destruct i as [|i]; [discriminate|].
      cbn [nth_error] in H. apply IH in H as [Hlen Hff].
      cbn [length first_failure]. now rewrite Hlen.
    + destruct i as [|i]; cbn in H.
      * inversion H; subst. now split.
      * destruct i; discriminate.
Qed.

Lemma issue_accepted_before hist todo i j x :
  nth_error (issue svc s3 hist todo) j = Some x -> i < j ->
  exists q, nth_error (issue svc s3 hist todo) i = Some (q, Accepted).
Proof.
  revert hist i j; induction todo as [|q0 rest IH]; intros hist i j H Hij.
  - destruct j; discriminate.
  - cbn [issue] in *. destruct (respond svc s3 hist q0) as [|e0].
    + destruct j as [|j]; [lia|]. destruct i as [|i].
      * now exists q0.
      * cbn [nth_error] in *. apply (IH _ i j); [exact H | lia].
    + destruct j as [|[|j]]; [lia | discriminate | discriminate].
Qed.

Lemma issue_all_accepted hist todo :
  forallb accepted (issue svc s3 hist todo) = true ->
  map fst (issue svc s3 hist todo) = todo
  /\ first_failure (issue svc s3 hist todo) = None.
Proof.
  revert hist; induction todo as [|q rest IH]; intros hist H; [now split|].
  cbn [issue] in *. destruct (respond svc s3 hist q) as [|e0].
  - cbn in H. apply IH in H as [Hm Hf]. cbn. now rewrite Hm.
  - discriminate.
Qed.

Lemma issue_first_failure hist todo e :
  first_failure (issue svc s3 hist todo) = Some e ->
  exists i q, nth_error (issue svc s3 hist todo) i = Some (q, Failed e).
Proof.
  revert hist; induction todo as [|q0 rest IH]; intros hist H; [discriminate|].
  cbn [issue] in *. destruct (respond svc s3 hist q0) as [|e0].
  - cbn in H. apply IH in H as (i & q & Hi). now exists (S i), q.
  - cbn in H. inversion H; subst. now exists 0, q0.
Qed.

End Issue.

(** Two services that answer a run of [issue] with the same replies were
    sent the same requests. *)
Lemma issue_same_replies svc1 svc2 s3 hist todo :
  map snd (issue svc1 s3 hist todo) = map snd (issue svc2 s3 hist todo) ->
  issue svc1 s3 hist todo = issue svc2 s3 hist todo.
Proof.
  revert hist; induction todo as [|q rest IH]; intros hist H; [reflexivity|].
  cbn [issue] in *.
  destruct (respond svc1 s3 hist q) as [|e1], (respond svc2 s3 hist q) as [|e2];
    cbn in H; try discriminate.
  - f_equal. apply IH. now inversion H.
  - now inversion H.
Qed.

Lemma calls_unfold svc r :
  calls svc r =
  match construct svc "s3" r with
  | Accepted => issue svc (Client "s3" r) [] (plan r)
  | Failed _ => []
  end.
Proof.
  unfold calls. rewrite run_unfold.
  destruct (construct svc "s3" r); [|reflexivity].
  cbv zeta.
  destruct (first_failure _) as [e|]; [destruct (is_ClientError e)|];
    reflexivity.
Qed.

(** A request the run issued is one of the four of [plan], at its place. *)
Lemma calls_in_plan svc r i q rep :
  nth_error (calls svc r) i = Some (q, rep) -> nth_error (plan r) i = Some q.
Proof.
  rewrite calls_unfold. destruct (construct svc "s3" r).
  - intros H.
    assert (Hq : nth_error (map fst (issue svc (Client "s3" r) [] (plan r))) i
                 = Some q) by (rewrite nth_error_map, H; reflexivity).
    rewrite issue_requests in Hq.
    assert (Hi : i < length (issue svc (Client "s3" r) [] (plan r)))
      by (apply nth_error_Some; congruence).
    now rewrite nth_error_firstn in Hq; apply Nat.ltb_lt in Hi; rewrite Hi in Hq.
  - destruct i; discriminate.
Qed.

Lemma plan_methods r : map method (plan r) = methods.
Proof.
  unfold plan, create_request.
  destruct (negb (String.eqb r "us-east-1")); reflexivity.
Qed.

Lemma calls_methods svc r :
  map (fun qr => method (fst qr)) (calls svc r)
  = firstn (length (calls svc r)) methods.
Proof.
  rewrite <- (plan_methods r), firstn_map, <- (map_map fst method).
  f_equal.
  rewrite calls_unfold. destruct (construct svc "s3" r); [|reflexivity].
  apply issue_requests.
Qed.

(** The place of a request in the run fixes its method, and back. *)
Lemma call_method svc r i q rep :
  nth_error (calls svc r) i = Some (q, rep) ->
  nth_error methods i = Some (method q).
Proof.
  intros H. apply calls_in_plan in H.
  rewrite <- (plan_methods r), nth_error_map, H. reflexivity.
Qed.

Ltac by_place H :=
  let Hm := fresh "Hm" in
  pose proof (call_method _ _ _ _ _ H) as Hm;
  unfold methods in Hm;
  repeat (match type of Hm with
          | context [nth_error _ ?i] => is_var i; destruct i
          end;
          cbn [nth_error] in Hm);
  try discriminate Hm; try congruence.

(** ** Step 1: the creation request *)

(** C1.  Every creation call the run issues carries, for a region other than
    us-east-1, exactly the bucket name and a CreateBucketConfiguration whose
    LocationConstraint is the region; for us-east-1 it carries the bucket name
    alone, with no CreateBucketConfiguration key.  The creation call is the
    first call of every run in which the client could be built. *)
Theorem create_call_location_constraint (svc : service) (r : string) :
  (forall i q rep,
      nth_error (calls svc r) i = Some (q, rep) ->
      method q = "create_bucket" ->
      (r <> "us-east-1" ->
       kwargs q =
         [ ("Bucket", VStr "cloud-app-project-1");
           ("CreateBucketConfiguration",
            VDict [ ("LocationConstraint", VStr r) ]) ])
      /\ (r = "us-east-1" ->
          kwargs q = [ ("Bucket", VStr "cloud-app-project-1") ]
          /\ dict_has "CreateBucketConfiguration" (kwargs q) = false))
  /\ (construct svc "s3" r = Accepted ->
      exists q rep,
        nth_error (calls svc r) 0 = Some (q, rep)
        /\ method q = "create_bucket").
Proof.
  split.
  - intros i q rep H Hm.
    pose proof (calls_in_plan _ _ _ _ _ H) as Hp.
    assert (i = 0) by (by_place H). subst i.
    cbn in Hp. inversion Hp as [Hq]. unfold create_request.
    split; intros Hr.
    + apply String.eqb_neq in Hr. now rewrite Hr.
    + subst r. now split.
  - intros Hc. rewrite calls_unfold, Hc. cbn [plan issue nth_error].
    eexists _, _. split; [reflexivity|].
    unfold create_request.
    destruct (negb (String.eqb r "us-east-1")); reflexivity.
Qed.

Lemma create_call_location_constraint_witness :
  kwargs (Request "create_bucket"
            [ ("Bucket", VStr "cloud-app-project-1");
              ("CreateBucketConfiguration",
               VDict [ ("LocationConstraint", VStr "sa-east-1") ]) ])
  = [ ("Bucket", VStr "cloud-app-project-1");
      ("CreateBucketConfiguration",
       VDict [ ("LocationConstraint", VStr "sa-east-1") ]) ]
  /\ dict_has "CreateBucketConfiguration"
       (kwargs (Request "create_bucket"
                  [ ("Bucket", VStr "cloud-app-project-1") ])) = false.
Proof.
  split.
  - destruct (create_call_location_constraint svc_ok "sa-east-1") as [H _].
    apply (H 0 _ Accepted); [reflexivity | reflexivity | discriminate].
  - destruct (create_call_location_constraint svc_ok "us-east-1") as [H _].
    apply (H 0 _ Accepted); reflexivity.
Defined.

(** ** The failure path *)

(** C2.  When a remote call of the run is answered with a ClientError, that
    call is the last one issued, the run prints the line "Erro: " followed by
    the text of the error right after the opening line, and create_bucket
    returns normally.  At position 0 this is the failed creation: one call
    only, steps 2 to 4 never sent. *)
Theorem client_error_is_caught (svc : service) (r : string) i q text :
  nth_error (calls svc r) i = Some (q, Failed (ClientError text)) ->
  length (calls svc r) = S i
  /\ printed svc r = [ "Criando o bucket cloud-app-project-1"; "Erro: " ++ text ]
  /\ result svc r = Returned tt.
Proof.
  unfold printed, result. rewrite calls_unfold, run_unfold.
  destruct (construct svc "s3" r) as [|e0].
  - intros H. apply issue_failed_last in H as [Hlen Hff].
    cbv zeta. rewrite Hff. cbn. auto.
  - destruct i; discriminate.
Qed.

Lemma client_error_is_caught_witness :
  nth_error (calls (svc_failing "create_bucket" (ClientError "BucketAlreadyExists"))
               "sa-east-1") 0
  = Some (create_request "sa-east-1", Failed (ClientError "BucketAlreadyExists"))
  /\ length (calls (svc_failing "create_bucket" (ClientError "BucketAlreadyExists"))
               "sa-east-1") = 1
  /\ printed (svc_failing "create_bucket" (ClientError "BucketAlreadyExists"))
       "sa-east-1"
     = [ "Criando o bucket cloud-app-project-1"; "Erro: BucketAlreadyExists" ]
  /\ result (svc_failing "create_bucket" (ClientError "BucketAlreadyExists"))
       "sa-east-1" = Returned tt.
Proof.
  split; [reflexivity|].
  apply (client_error_is_caught
           (svc_failing "create_bucket" (ClientError "BucketAlreadyExists"))
           "sa-east-1" 0 (create_request "sa-east-1") "BucketAlreadyExists").
  reflexivity.
Defined.

(** ** Order of the calls *)

(** C3.  In a run where the client is built and every call is accepted, the
    methods called are create_bucket, put_public_access_block,
    put_bucket_website, put_bucket_policy, these four in this order.  In any
    run at all, a put_bucket_policy call at position j comes after an accepted
    put_public_access_block call, and every put_public_access_block call of
    the run sits before position j. *)
Theorem calls_in_fixed_order (svc : service) (r : string) :
  (construct svc "s3" r = Accepted ->
   forallb accepted (calls svc r) = true ->
   map (fun qr => method (fst qr)) (calls svc r)
   = [ "create_bucket"; "put_public_access_block"; "put_bucket_website";
       "put_bucket_policy" ])
  /\ (forall j q rep,
         nth_error (calls svc r) j = Some (q, rep) ->
         method q = "put_bucket_policy" ->
         (exists i q',
             i < j
             /\ nth_error (calls svc r) i = Some (q', Accepted)
             /\ method q' = "put_public_access_block")
         /\ (forall k q' rep',
                nth_error (calls svc r) k = Some (q', rep') ->
                method q' = "put_public_access_block" -> k < j)).
Proof.
  split.
  - intros Hc Hall. rewrite <- (map_map fst method).
    rewrite calls_unfold, Hc in *.
    apply issue_all_accepted in Hall as [Hreq _].
    rewrite Hreq. apply plan_methods.
  - intros j q rep Hj Hm.
    assert (j = 3) by (by_place Hj). subst j. split.
    + assert (H1 : exists q', nth_error (calls svc r) 1 = Some (q', Accepted)).
      { revert Hj. rewrite calls_unfold.
        destruct (construct svc "s3" r); [|discriminate].
        intros Hj. apply (issue_accepted_before _ _ _ _ 1 3 _ Hj). lia. }
      destruct H1 as [q' H1]. exists 1, q'. repeat split; [lia | exact H1 |].
      apply call_method in H1. cbn in H1. congruence.
    + intros k q' rep' Hk Hm'.
      assert (k = 1) by (by_place Hk). lia.
Qed.

Lemma calls_in_fixed_order_witness :
  map (fun qr => method (fst qr)) (calls svc_ok "sa-east-1")
  = [ "create_bucket"; "put_public_access_block"; "put_bucket_website";
      "put_bucket_policy" ]
  /\ exists i q',
       i < 3
       /\ nth_error (calls (svc_failing "put_bucket_policy" (ClientError "AccessDenied"))
                       "us-east-1") i = Some (q', Accepted)
       /\ method q' = "put_public_access_block".
Proof.
  split.
  - destruct (calls_in_fixed_order svc_ok "sa-east-1") as [H _].
    apply H; reflexivity.
  - destruct (calls_in_fixed_order
                (svc_failing "put_bucket_policy" (ClientError "AccessDenied"))
                "us-east-1") as [_ H].
    destruct (H 3 policy_request (Failed (ClientError "AccessDenied")))
      as [Hex _]; [reflexivity | reflexivity | exact Hex].
Defined.

(** ** Payloads of steps 2, 3 and 4 *)

Lemma dumps_bucket_policy : Json.dumps bucket_policy = policy_text.
Proof. reflexivity. Qed.

(** C4.  Every put_bucket_policy call of a run is the fourth call and carries
    the bucket name and, as Policy, the JSON text of a document whose
    Statement list holds one statement with Effect Allow, Principal *, Action
    s3:GetObject and Resource arn:aws:s3:::cloud-app-project-1/*; that text is
    [policy_text]. *)
Theorem policy_document_sent (svc : service) (r : string) i q rep :
  nth_error (calls svc r) i = Some (q, rep) ->
  method q = "put_bucket_policy" ->
  i = 3
  /\ exists doc stmt,
       kwargs q = [ ("Bucket", VStr "cloud-app-project-1");
                    ("Policy", VStr (Json.dumps (VDict doc))) ]
       /\ Json.dumps (VDict doc) = policy_text
       /\ dict_get "Statement" doc = Some (VList [ VDict stmt ])
       /\ dict_get "Resource" stmt
          = Some (VStr "arn:aws:s3:::cloud-app-project-1/*")
       /\ dict_get "Action" stmt = Some (VStr "s3:GetObject")
       /\ dict_get "Principal" stmt = Some (VStr "*")
       /\ dict_get "Effect" stmt = Some (VStr "Allow").
Proof.
  intros H Hm. pose proof (calls_in_plan _ _ _ _ _ H) as Hp.
  assert (i = 3) by (by_place H). subst i. split; [reflexivity|].
  cbn in Hp. inversion Hp as [Hq].
  unfold policy_request, bucket_policy.
  eexists _, _. split; [reflexivity|]. repeat split.
Qed.

Lemma policy_document_sent_witness :
  nth_error (calls svc_ok "sa-east-1") 3 = Some (policy_request, Accepted)
  /\ exists doc stmt,
       kwargs policy_request
       = [ ("Bucket", VStr "cloud-app-project-1");
           ("Policy", VStr (Json.dumps (VDict doc))) ]
       /\ dict_get "Statement" doc = Some (VList [ VDict stmt ])
       /\ dict_get "Resource" stmt
          = Some (VStr "arn:aws:s3:::cloud-app-project-1/*").
Proof.
  split; [reflexivity|].
  destruct (policy_document_sent svc_ok "sa-east-1" 3 policy_request Accepted)
    as [_ (doc & stmt & Hk & _ & Hs & Hr & _)]; [reflexivity | reflexivity |].
  exists doc, stmt. auto.
Defined.

(** C5.  Every put_public_access_block call of a run, whatever the region and
    whatever the service answered before, is the second call and carries the
    bucket name and a PublicAccessBlockConfiguration with BlockPublicAcls,
    IgnorePublicAcls, BlockPublicPolicy and RestrictPublicBuckets all False. *)
Theorem public_access_block_permissive (svc : service) (r : string) i q rep :
  nth_error (calls svc r) i = Some (q, rep) ->
  method q = "put_public_access_block" ->
  i = 1
  /\ kwargs q =
     [ ("Bucket", VStr "cloud-app-project-1");
       ("PublicAccessBlockConfiguration",
        VDict
          [ ("BlockPublicAcls", VBool false);
            ("IgnorePublicAcls", VBool false);
            ("BlockPublicPolicy", VBool false);
            ("RestrictPublicBuckets", VBool false) ]) ].
Proof.
  intros H Hm. pose proof (calls_in_plan _ _ _ _ _ H) as Hp.
  assert (i = 1) by (by_place H). subst i. split; [reflexivity|].
  cbn in Hp. now inversion Hp.
Qed.

Lemma public_access_block_permissive_witness :
  nth_error (calls (svc_failing "put_public_access_block"
                      (ClientError "AccessDenied")) "eu-west-1") 1
  = Some (block_request, Failed (ClientError "AccessDenied"))
  /\ dict_get "PublicAccessBlockConfiguration" (kwargs block_request)
     = Some (VDict
               [ ("BlockPublicAcls", VBool false);
                 ("IgnorePublicAcls", VBool false);
                 ("BlockPublicPolicy", VBool false);
                 ("RestrictPublicBuckets", VBool false) ]).
Proof.
  split; [reflexivity|].
  destruct (public_access_block_permissive
              (svc_failing "put_public_access_block" (ClientError "AccessDenied"))
              "eu-west-1" 1 block_request (Failed (ClientError "AccessDenied")))
    as [_ Hk]; [reflexivity | reflexivity |].
  rewrite Hk. reflexivity.
Defined.

(** C6.  Every put_bucket_website call of a run is the third call and carries
    the bucket name and a WebsiteConfiguration whose ErrorDocument key is
    error.html and whose IndexDocument suffix is index.html. *)
Theorem website_documents (svc : service) (r : string) i q rep :
  nth_error (calls svc r) i = Some (q, rep) ->
  method q = "put_bucket_website" ->
  i = 2
  /\ kwargs q =
     [ ("Bucket", VStr "cloud-app-project-1");
       ("WebsiteConfiguration",
        VDict
          [ ("ErrorDocument", VDict [ ("Key", VStr "error.html") ]);
            ("IndexDocument", VDict [ ("Suffix", VStr "index.html") ]) ]) ].
Proof.
  intros H Hm. pose proof (calls_in_plan _ _ _ _ _ H) as Hp.
  assert (i = 2) by (by_place H). subst i. split; [reflexivity|].
  cbn in Hp. now inversion Hp.
Qed.

Lemma website_documents_witness :
  nth_error (calls svc_ok "us-east-1") 2 = Some (website_request, Accepted)
  /\ dict_get "WebsiteConfiguration" (kwargs website_request)
     = Some (VDict
               [ ("ErrorDocument", VDict [ ("Key", VStr "error.html") ]);
                 ("IndexDocument", VDict [ ("Suffix", VStr "index.html") ]) ]).
Proof.
  split; [reflexivity|].
  destruct (website_documents svc_ok "us-east-1" 2 website_request Accepted)
    as [_ Hk]; [reflexivity | reflexivity |].
  rewrite Hk. reflexivity.
Defined.

(** ** The success path *)

(** C7.  In a run that returns normally with every call accepted, the lines
    printed are the opening line, the success line and the line URL: followed
    by http://cloud-app-project-1.s3-website-REGION.amazonaws.com for the
    region given.  The call without argument is the call with region
    sa-east-1, which is what the module runs as a script, and on success its
    last line shows
    http://cloud-app-project-1.s3-website-sa-east-1.amazonaws.com. *)
Theorem success_url (svc : service) :
  (forall r,
      result svc r = Returned tt ->
      forallb accepted (calls svc r) = true ->
      printed svc r
      = [ "Criando o bucket cloud-app-project-1";
          "Bucket configurado com sucesso!";
          "URL: " ++ "http://" ++ "cloud-app-project-1" ++ ".s3-website-" ++ r
          ++ ".amazonaws.com" ])
  /\ main "__main__" svc initial = run_default svc
  /\ run_default svc = run svc "sa-east-1"
  /\ (fst (run_default svc) = Returned tt ->
      forallb accepted (wire (snd (run_default svc))) = true ->
      last (stdout (snd (run_default svc))) EmptyString
      = "URL: http://cloud-app-project-1.s3-website-sa-east-1.amazonaws.com").
Proof.
  assert (Hgen : forall r,
             result svc r = Returned tt ->
             forallb accepted (calls svc r) = true ->
             printed svc r = [ line_start; line_done; line_url r ]).
  { intros r. unfold result, printed. rewrite calls_unfold, run_unfold.
    destruct (construct svc "s3" r); [|discriminate].
    intros _ Hall. apply issue_all_accepted in Hall as [_ Hff].
    cbv zeta. now rewrite Hff. }
  split; [exact Hgen|].
  split; [reflexivity|]. split; [reflexivity|].
  intros Hres Hall.
  change (run_default svc) with (run svc "sa-east-1") in *.
  fold (printed svc "sa-east-1"). rewrite (Hgen "sa-east-1" Hres Hall).
  reflexivity.
Qed.

Lemma success_url_witness :
  printed svc_ok "ap-south-1"
  = [ "Criando o bucket cloud-app-project-1";
      "Bucket configurado com sucesso!";
      "URL: http://cloud-app-project-1.s3-website-ap-south-1.amazonaws.com" ]
  /\ last (stdout (snd (run_default svc_ok))) EmptyString
     = "URL: http://cloud-app-project-1.s3-website-sa-east-1.amazonaws.com".
Proof.
  destruct (success_url svc_ok) as (Hr & _ & _ & Hd). split.
  - apply (Hr "ap-south-1"); reflexivity.
  - apply Hd; reflexivity.
Defined.

(** ** Partial failure *)

(** C8.  When a call after the creation (position 1, 2 or 3) fails, with any
    exception, it is the last call of the run: the methods called are the
    first i+1 of the four, the creation call at position 0 was accepted, and
    every call before the failing one was accepted.  Nothing is sent after the
    failing call, so no call undoes the creation. *)
Theorem no_cleanup_after_failure (svc : service) (r : string) i q e :
  1 <= i ->
  nth_error (calls svc r) i = Some (q, Failed e) ->
  length (calls svc r) = S i
  /\ map (fun qr => method (fst qr)) (calls svc r)
     = firstn (S i)
         [ "create_bucket"; "put_public_access_block"; "put_bucket_website";
           "put_bucket_policy" ]
  /\ (exists q0,
         nth_error (calls svc r) 0 = Some (q0, Accepted)
         /\ method q0 = "create_bucket")
  /\ (forall j, j < i ->
        exists q', nth_error (calls svc r) j = Some (q', Accepted)).
Proof.
  intros Hi H.
  assert (Hlen : length (calls svc r) = S i).
  { revert H. rewrite calls_unfold. destruct (construct svc "s3" r).
    - intros H. now apply issue_failed_last in H.
    - destruct i; discriminate. }
  assert (Hbefore : forall j, j < i ->
             exists q', nth_error (calls svc r) j = Some (q', Accepted)).
  { intros j Hj. revert H. rewrite calls_unfold.
    destruct (construct svc "s3" r).
    - intros H. now apply (issue_accepted_before _ _ _ _ j i _ H).
    - destruct i; discriminate. }
  split; [exact Hlen|]. split.
  - rewrite calls_methods, Hlen. reflexivity.
  - split; [|exact Hbefore].
    destruct (Hbefore 0) as [q0 H0]; [lia|].
    exists q0. split; [exact H0|].
    apply call_method in H0. cbn in H0. congruence.
Qed.

Lemma no_cleanup_after_failure_witness :
  nth_error (calls (svc_failing "put_bucket_website" (ClientError "AccessDenied"))
               "sa-east-1") 2
  = Some (website_request, Failed (ClientError "AccessDenied"))
  /\ map (fun qr => method (fst qr))
       (calls (svc_failing "put_bucket_website" (ClientError "AccessDenied"))
          "sa-east-1")
     = [ "create_bucket"; "put_public_access_block"; "put_bucket_website" ].
Proof.
  split; [reflexivity|].
  destruct (no_cleanup_after_failure
              (svc_failing "put_bucket_website" (ClientError "AccessDenied"))
              "sa-east-1" 2 website_request (ClientError "AccessDenied"))
    as (_ & Hm & _); [lia | reflexivity | exact Hm].
Defined.

(** ** Exceptions the handler does not catch *)

(** C9.  A failure of the client construction, of any class, leaves
    create_bucket with that exception before anything is sent or printed.  A
    remote call that fails with an exception that is not a ClientError ends
    the run with that exception raised, no call after it, and only the opening
    line printed.  And whenever the run ends with an exception raised, it is
    one of these two cases: nothing else escapes, and a ClientError from a
    remote call never does. *)
Theorem only_client_error_is_caught (svc : service) (r : string) :
  (forall e, construct svc "s3" r = Failed e -> run svc r = (Raised e, initial))
  /\ (forall i q e,
         nth_error (calls svc r) i = Some (q, Failed e) ->
         is_ClientError e = false ->
         result svc r = Raised e
         /\ length (calls svc r) = S i
         /\ printed svc r = [ "Criando o bucket cloud-app-project-1" ])
  /\ (forall e,
         result svc r = Raised e ->
         construct svc "s3" r = Failed e
         \/ (is_ClientError e = false
             /\ exists i q, nth_error (calls svc r) i = Some (q, Failed e))).
Proof.
  split; [|split].
  - intros e Hc. rewrite run_unfold, Hc. reflexivity.
  - intros i q e. unfold result, printed. rewrite calls_unfold, run_unfold.
    destruct (construct svc "s3" r).
    + intros H He. apply issue_failed_last in H as [Hlen Hff].
      cbv zeta. rewrite Hff, He. auto.
    + destruct i; discriminate.
  - intros e. unfold result. rewrite calls_unfold, run_unfold.
    destruct (construct svc "s3" r) as [|e0].
    + cbv zeta.
      destruct (first_failure _) as [e1|] eqn:Hff; [|discriminate].
      destruct (is_ClientError e1) eqn:He1; [discriminate|].
      cbn [fst]. intros H. inversion H; subst e1. right. split; [exact He1|].
      now apply issue_first_failure.
    + cbn. intros H. inversion H. now left.
Qed.

Lemma only_client_error_is_caught_witness :
  run (svc_no_client (ClientError "ExpiredToken")) "sa-east-1"
  = (Raised (ClientError "ExpiredToken"), initial)
  /\ result (svc_failing "put_bucket_website"
               (OtherException "EndpointConnectionError" "unreachable"))
       "sa-east-1"
     = Raised (OtherException "EndpointConnectionError" "unreachable")
  /\ printed (svc_failing "put_bucket_website"
                (OtherException "EndpointConnectionError" "unreachable"))
       "sa-east-1"
     = [ "Criando o bucket cloud-app-project-1" ].
Proof.
  split.
  - destruct (only_client_error_is_caught
                (svc_no_client (ClientError "ExpiredToken")) "sa-east-1")
      as [H _].
    apply H. reflexivity.
  - destruct (only_client_error_is_caught
                (svc_failing "put_bucket_website"
                   (OtherException "EndpointConnectionError" "unreachable"))
                "sa-east-1") as (_ & H & _).
    destruct (H 2 website_request
                (OtherException "EndpointConnectionError" "unreachable"))
      as (Hres & _ & Hout); [reflexivity | reflexivity |].
    split; [exact Hres | exact Hout].
Defined.

(** ** Two runs *)

(** C10.  Two runs for the same region whose client construction is answered
    alike and whose remote calls receive the same replies, one after the
    other, are the same run: the same requests with the same payloads in the
    same order, the same printed lines, the same result, even when the two
    services differ elsewhere.  Every request of a run names the bucket
    cloud-app-project-1. *)
Theorem runs_are_determined_by_replies (svc1 svc2 : service) (r : string) :
  construct svc1 "s3" r = construct svc2 "s3" r ->
  map snd (calls svc1 r) = map snd (calls svc2 r) ->
  run svc1 r = run svc2 r
  /\ map fst (calls svc1 r) = map fst (calls svc2 r)
  /\ printed svc1 r = printed svc2 r
  /\ (forall i q rep,
         nth_error (calls svc1 r) i = Some (q, rep) ->
         dict_get "Bucket" (kwargs q) = Some (VStr "cloud-app-project-1")).
Proof.
  intros Hc Hrep.
  assert (Hrun : run svc1 r = run svc2 r).
  { rewrite !calls_unfold, <- Hc in Hrep. rewrite !run_unfold, <- Hc.
    destruct (construct svc1 "s3" r); [|reflexivity].
    apply issue_same_replies in Hrep. now rewrite Hrep. }
  split; [exact Hrun|]. unfold calls, printed. rewrite Hrun.
  split; [reflexivity|]. split; [reflexivity|].
  intros i q rep H. fold (calls svc2 r) in H.
  apply calls_in_plan in H. unfold plan, create_request in H.
  destruct (negb (String.eqb r "us-east-1")).
  all: do 4 (destruct i as [|i]; [cbn in H; inversion H; reflexivity|]).
  all: destruct i; discriminate.
Qed.

Lemma runs_are_determined_by_replies_witness :
  construct svc_ok "s3" "sa-east-1"
  = construct (svc_failing "delete_bucket" (ClientError "AccessDenied")) "s3"
      "sa-east-1"
  /\ run svc_ok "sa-east-1"
     = run (svc_failing "delete_bucket" (ClientError "AccessDenied")) "sa-east-1".
Proof.
  split; [reflexivity|].
  apply (runs_are_determined_by_replies svc_ok
           (svc_failing "delete_bucket" (ClientError "AccessDenied"))
           "sa-east-1"); reflexivity.
Defined.

(** ** Further properties of [issue] *)

Section IssueMore.

Variable svc : service.
Variable s3 : client.

Lemma issue_no_failure hist todo :
  first_failure (issue svc s3 hist todo) = None ->
  forallb accepted (issue svc s3 hist todo) = true
  /\ length (issue svc s3 hist todo) = length todo.
Proof.
  revert hist; induction todo as [|q rest IH]; intros hist H; [now split|].
  cbn [issue] in *. destruct (respond svc s3 hist q) as [|e0].
  - cbn in H. apply IH in H as [Ha Hl]. cbn. now rewrite Ha, Hl.
  - discriminate.
Qed.

Lemma issue_continues hist todo i q :
  nth_error (issue svc s3 hist todo) i = Some (q, Accepted) ->
  S i < length todo ->
  exists q' rep, nth_error (issue svc s3 hist todo) (S i) = Some (q', rep).
Proof.
  revert hist i; induction todo as [|q0 rest IH]; intros hist i H Hlt.
  - destruct i; discriminate.
  - cbn [issue] in *. destruct (respond svc s3 hist q0) as [|e0].
    + destruct i as [|i].
      * destruct rest as [|q1 rest']; [cbn in Hlt; lia|].
        cbn [issue nth_error]. eexists _, _. reflexivity.
      * cbn [nth_error] in *. apply IH; [exact H | cbn in Hlt; lia].
    + destruct i as [|[|i]]; discriminate.
Qed.

Lemma issue_advance h hist todo :
  issue (advance h svc) s3 hist todo = issue svc s3 (h ++ hist) todo.
Proof.
  revert hist; induction todo as [|q rest IH]; intros hist; [reflexivity|].
  cbn [issue advance respond].
  destruct (respond svc s3 (h ++ hist) q); [|reflexivity].
  now rewrite IH, app_assoc.
Qed.

End IssueMore.

(** Two services that agree on what they answer through [s3] are sent the
    same requests and give the same replies. *)
Lemma issue_agree svc1 svc2 s3 hist todo :
  (forall h q, respond svc1 s3 h q = respond svc2 s3 h q) ->
  issue svc1 s3 hist todo = issue svc2 s3 hist todo.
Proof.
  intros Hag. revert hist; induction todo as [|q rest IH]; intros hist;
    [reflexivity|].
  cbn [issue]. rewrite Hag.
  destruct (respond svc2 s3 hist q); [|reflexivity].
  now rewrite IH.
Qed.

Lemma plan_length r : length (plan r) = 4.
Proof. reflexivity. Qed.

(** ** What the printed lines say about the run *)

(** X1.  The success line is printed exactly in the runs in which the client
    was built and four calls were issued and all accepted: the script never
    reports success after a failure, and always reports it otherwise. *)
Theorem success_line_iff_all_accepted (svc : service) (r : string) :
  In "Bucket configurado com sucesso!" (printed svc r) <->
  (construct svc "s3" r = Accepted
   /\ length (calls svc r) = 4
   /\ forallb accepted (calls svc r) = true).
Proof.
  unfold printed. rewrite calls_unfold, run_unfold.
  destruct (construct svc "s3" r) as [|e0].
  - cbv zeta.
    destruct (first_failure (issue svc (Client "s3" r) [] (plan r)))
      as [e|] eqn:Hff.
    + split.
      * destruct (is_ClientError e); cbn [snd stdout In];
          intuition discriminate.
      * intros (_ & _ & Hall). apply issue_all_accepted in Hall as [_ Hn].
        congruence.
    + split.
      * intros _. apply issue_no_failure in Hff as [Ha Hl].
        now rewrite Hl, plan_length.
      * intros _. cbn. auto.
  - split; [intros [] | intros [H _]; discriminate H].
Qed.

Lemma success_line_iff_all_accepted_witness :
  In "Bucket configurado com sucesso!" (printed svc_ok "sa-east-1")
  /\ ~ In "Bucket configurado com sucesso!"
         (printed (svc_failing "put_bucket_policy" (ClientError "AccessDenied"))
            "sa-east-1").
Proof.
  split.
  - apply (proj2 (success_line_iff_all_accepted svc_ok "sa-east-1")).
    repeat split.
  - intros H.
    apply (proj1 (success_line_iff_all_accepted
                    (svc_failing "put_bucket_policy" (ClientError "AccessDenied"))
                    "sa-east-1")) in H.
    destruct H as (_ & _ & H). discriminate H.
Defined.

(** X2.  The line "Erro: " followed by a text is printed exactly in the runs
    in which a remote call failed with a ClientError of that text; and no run
    prints both that line and the success line. *)
Theorem error_line_iff_client_error (svc : service) (r : string) (text : string) :
  (In ("Erro: " ++ text) (printed svc r) <->
   exists i q, nth_error (calls svc r) i = Some (q, Failed (ClientError text)))
  /\ ~ (In "Bucket configurado com sucesso!" (printed svc r)
        /\ In ("Erro: " ++ text) (printed svc r)).
Proof.
  unfold printed. rewrite calls_unfold, run_unfold.
  destruct (construct svc "s3" r) as [|e0].
  - cbv zeta.
    destruct (first_failure (issue svc (Client "s3" r) [] (plan r)))
      as [e|] eqn:Hff.
    + split.
      * split.
        -- destruct e as [t|c t]; cbn [is_ClientError snd stdout In str].
           ++ intros [H|[H|[]]]; [discriminate H|].
              cbn in H. inversion H; subst t.
              now apply issue_first_failure.
           ++ intros [H|[]]. discriminate H.
        -- intros (i & q & H). apply issue_failed_last in H as [_ H].
           rewrite Hff in H. inversion H; subst e. cbn. auto.
      * destruct (is_ClientError e); cbn [snd stdout In];
          intuition discriminate.
    + split.
      * split.
        -- cbn [snd stdout In]. intuition discriminate.
        -- intros (i & q & H). apply issue_failed_last in H as [_ H].
           congruence.
      * cbn [snd stdout In]. intuition discriminate.
  - split.
    + split; [intros [] | intros (i & q & H); destruct i; discriminate H].
    + intros [[] _].
Qed.

Lemma error_line_iff_client_error_witness :
  In ("Erro: " ++ "AccessDenied")
    (printed (svc_failing "put_bucket_website" (ClientError "AccessDenied"))
       "sa-east-1")
  /\ ~ In ("Erro: " ++ "unreachable")
         (printed (svc_failing "put_bucket_website"
                     (OtherException "EndpointConnectionError" "unreachable"))
            "sa-east-1").
Proof.
  split.
  - apply (proj2 (proj1 (error_line_iff_client_error
                           (svc_failing "put_bucket_website"
                              (ClientError "AccessDenied"))
                           "sa-east-1" "AccessDenied"))).
    exists 2, website_request. reflexivity.
  - intros H.
    apply (proj1 (proj1 (error_line_iff_client_error
                           (svc_failing "put_bucket_website"
                              (OtherException "EndpointConnectionError"
                                 "unreachable"))
                           "sa-east-1" "unreachable"))) in H.
    destruct H as (i & q & H).
    do 3 (destruct i as [|i]; [discriminate H|]).
    destruct i; discriminate H.
Defined.

(** ** Shape of every run *)

(** X3.  Whatever the service answers, a run issues at most four calls, no
    method is called twice (nothing is retried), and every method called is
    one of create_bucket, put_public_access_block, put_bucket_website and
    put_bucket_policy: no object is uploaded and nothing is deleted. *)
Theorem each_method_called_at_most_once (svc : service) (r : string) :
  length (calls svc r) <= 4
  /\ NoDup (map (fun qr => method (fst qr)) (calls svc r))
  /\ (forall i q rep,
         nth_error (calls svc r) i = Some (q, rep) ->
         In (method q)
           [ "create_bucket"; "put_public_access_block"; "put_bucket_website";
             "put_bucket_policy" ]).
Proof.
  split; [|split].
  - pose proof (f_equal (@length _) (calls_methods svc r)) as H.
    rewrite length_map, length_firstn in H. cbn [methods length] in H. lia.
  - rewrite calls_methods.
    destruct (length (calls svc r)) as [|[|[|[|n]]]]; cbn [firstn methods];
      try rewrite firstn_nil;
      repeat (constructor; [cbn [In]; intuition discriminate|]);
      constructor.
  - intros i q rep H. apply call_method in H.
    apply nth_error_In in H. exact H.
Qed.

Lemma each_method_called_at_most_once_witness :
  length (calls (svc_failing "put_bucket_website" (ClientError "AccessDenied"))
            "sa-east-1") <= 4
  /\ In (method website_request)
       [ "create_bucket"; "put_public_access_block"; "put_bucket_website";
         "put_bucket_policy" ].
Proof.
  destruct (each_method_called_at_most_once
              (svc_failing "put_bucket_website" (ClientError "AccessDenied"))
              "sa-east-1") as (Hlen & _ & Hin).
  split; [exact Hlen|].
  apply (Hin 2 website_request (Failed (ClientError "AccessDenied"))).
  reflexivity.
Defined.

(** X4.  A run stops only at a failure: when one of the first three calls is
    accepted, the next call is issued. *)
Theorem accepted_call_is_followed (svc : service) (r : string) i q :
  nth_error (calls svc r) i = Some (q, Accepted) ->
  i < 3 ->
  exists q' rep, nth_error (calls svc r) (S i) = Some (q', rep).
Proof.
  rewrite calls_unfold. destruct (construct svc "s3" r).
  - intros H Hi. apply (issue_continues _ _ _ _ _ _ H).
    rewrite plan_length. lia.
  - destruct i; discriminate.
Qed.

Lemma accepted_call_is_followed_witness :
  nth_error (calls (svc_failing "put_bucket_website" (ClientError "AccessDenied"))
               "sa-east-1") 1
  = Some (block_request, Accepted)
  /\ exists q' rep,
       nth_error (calls (svc_failing "put_bucket_website"
                           (ClientError "AccessDenied")) "sa-east-1") 2
       = Some (q', rep).
Proof.
  split; [reflexivity|].
  apply (accepted_call_is_followed
           (svc_failing "put_bucket_website" (ClientError "AccessDenied"))
           "sa-east-1" 1 block_request); [reflexivity | lia].
Defined.

(** X5.  create_bucket returns normally exactly when the client was built and
    every call that failed, failed with a ClientError: the return does not
    tell a caught failure from a success. *)
Theorem returns_normally_iff (svc : service) (r : string) :
  result svc r = Returned tt <->
  (construct svc "s3" r = Accepted
   /\ forall i q e,
        nth_error (calls svc r) i = Some (q, Failed e) ->
        is_ClientError e = true).
Proof.
  unfold result. rewrite calls_unfold, run_unfold.
  destruct (construct svc "s3" r) as [|e0].
  - cbv zeta.
    destruct (first_failure (issue svc (Client "s3" r) [] (plan r)))
      as [e|] eqn:Hff.
    + destruct (is_ClientError e) eqn:He; cbn [fst]; split.
      * intros _. split; [reflexivity|]. intros i q e' H.
        apply issue_failed_last in H as [_ H]. congruence.
      * reflexivity.
      * discriminate.
      * intros [_ H]. apply issue_first_failure in Hff as (i & q & Hi).
        apply H in Hi. congruence.
    + cbn [fst]. split; [|reflexivity].
      intros _. split; [reflexivity|]. intros i q e' H.
      apply issue_failed_last in H as [_ H]. congruence.
  - cbn [fst]. split; [discriminate | intros [H _]; discriminate H].
Qed.

Lemma returns_normally_iff_witness :
  result (svc_failing "create_bucket" (ClientError "BucketAlreadyExists"))
    "sa-east-1" = Returned tt
  /\ result svc_ok "sa-east-1" = Returned tt.
Proof.
  split.
  - apply (proj2 (returns_normally_iff
                    (svc_failing "create_bucket"
                       (ClientError "BucketAlreadyExists")) "sa-east-1")).
    split; [reflexivity|]. intros i q e H.
    destruct i as [|i]; [inversion H; reflexivity|].
    destruct i; discriminate H.
  - apply (proj2 (returns_normally_iff svc_ok "sa-east-1")).
    split; [reflexivity|]. intros i q e H.
    do 4 (destruct i as [|i]; [discriminate H|]).
    destruct i; discriminate H.
Defined.

(** ** A call in a process that has already run *)

Ltac step_invoke_from :=
  rewrite bind_invoke; cbn [wire stdout];
  match goal with
  | |- context [respond ?s ?c ?h ?q] =>
      destruct (respond s c h q) as [|[?|? ?]]
  end;
  cbn [issue first_failure wire stdout is_ClientError str fst snd];
  try solve [ unfold bind, print; cbn [wire stdout];
              rewrite <- ?app_assoc; reflexivity ].

Lemma create_bucket_from (svc : service) (r : string) (w : world) :
  create_bucket (Some r) svc w =
  match construct svc "s3" r with
  | Failed e => (Raised e, w)
  | Accepted =>
      let tr := issue svc (Client "s3" r) (wire w) (plan r) in
      match first_failure tr with
      | None =>
          (Returned tt,
           World (wire w ++ tr) (stdout w ++ [line_start; line_done; line_url r]))
      | Some e =>
          if is_ClientError e
          then (Returned tt,
                World (wire w ++ tr) (stdout w ++ [line_start; "Erro: " ++ str e]))
          else (Raised e, World (wire w ++ tr) (stdout w ++ [line_start]))
      end
  end.
Proof.
  unfold create_bucket.
  unfold bind at 1, boto3_client.
  destruct (construct svc "s3" r) as [|e0]; [|reflexivity].
  unfold try_except_ClientError, plan, create_request, block_request,
    website_request, policy_request.
  rewrite bind_print; cbn [wire stdout issue].
  destruct (negb (String.eqb r "us-east-1")).
  all: do 4 step_invoke_from.
Qed.

(** X6.  Called in a process that has already exchanged calls and printed
    lines, create_bucket keeps both as they are and adds after them exactly
    the calls and the lines of a fresh run against the service as those
    earlier exchanges left it, with the same result. *)
Theorem create_bucket_appends (a : option string) (svc : service) (w : world) :
  create_bucket a svc w =
  (fst (create_bucket a (advance (wire w) svc) initial),
   World
     (wire w ++ wire (snd (create_bucket a (advance (wire w) svc) initial)))
     (stdout w ++ stdout (snd (create_bucket a (advance (wire w) svc) initial)))).
Proof.
  assert (H : forall r,
             create_bucket (Some r) svc w =
             (fst (create_bucket (Some r) (advance (wire w) svc) initial),
              World
                (wire w ++
                 wire (snd (create_bucket (Some r) (advance (wire w) svc) initial)))
                (stdout w ++
                 stdout (snd (create_bucket (Some r) (advance (wire w) svc)
                                initial))))).
  { intros r. rewrite !create_bucket_from.
    cbn [advance construct initial wire stdout].
    rewrite issue_advance, app_nil_r.
    destruct (construct svc "s3" r) as [|e0].
    - cbv zeta.
      destruct (first_failure (issue svc (Client "s3" r) (wire w) (plan r)))
        as [e|]; [destruct (is_ClientError e)|]; reflexivity.
    - destruct w; cbn. now rewrite !app_nil_r. }
  destruct a as [r|]; [apply H|].
  change (create_bucket None) with (create_bucket (Some "sa-east-1")).
  apply H.
Qed.

Lemma create_bucket_appends_witness :
  stdout (snd (create_bucket (Some "us-east-1") svc_ok
                 (snd (create_bucket None svc_ok initial))))
  = [ "Criando o bucket cloud-app-project-1";
      "Bucket configurado com sucesso!";
      "URL: http://cloud-app-project-1.s3-website-sa-east-1.amazonaws.com";
      "Criando o bucket cloud-app-project-1";
      "Bucket configurado com sucesso!";
      "URL: http://cloud-app-project-1.s3-website-us-east-1.amazonaws.com" ].
Proof.
  rewrite (create_bucket_appends (Some "us-east-1") svc_ok
             (snd (create_bucket None svc_ok initial))).
  reflexivity.
Defined.

(** ** The client the calls go through *)

(** X7.  A run consults the service only through the client built for the
    service name s3 with the region passed in: two services that answer that
    construction alike and answer alike through that client give the same
    run, whatever they do for other service names or regions. *)
Theorem run_uses_the_regional_s3_client (svc1 svc2 : service) (r : string) :
  construct svc1 "s3" r = construct svc2 "s3" r ->
  (forall h q,
      respond svc1 (Client "s3" r) h q = respond svc2 (Client "s3" r) h q) ->
  run svc1 r = run svc2 r.
Proof.
  intros Hc Hag. rewrite !run_unfold, <- Hc.
  destruct (construct svc1 "s3" r); [|reflexivity].
  now rewrite (issue_agree svc1 svc2 _ _ _ Hag).
Qed.

Lemma run_uses_the_regional_s3_client_witness :
  run (svc_only_client "s3" "eu-west-1" (ClientError "AccessDenied")) "eu-west-1"
  = run svc_ok "eu-west-1"
  /\ result (svc_only_client "s3" "eu-west-1" (ClientError "AccessDenied"))
       "sa-east-1" = Returned tt
  /\ length (calls (svc_only_client "s3" "eu-west-1" (ClientError "AccessDenied"))
               "sa-east-1") = 1.
Proof.
  split; [|split; reflexivity].
  apply (run_uses_the_regional_s3_client
           (svc_only_client "s3" "eu-west-1" (ClientError "AccessDenied"))
           svc_ok "eu-west-1"); [reflexivity|].
  intros h q. reflexivity.
Defined.
